(** * A model of hermit's GitHub client ([github/api.go])

    The client builds HTTP requests, sends them through an [http.Client],
    classifies the outcome and decodes JSON bodies.  The Go standard library
    is not part of the repository: URL parsing, request validation, the
    network and the JSON decoder are parameters of the model (Section
    variables), and every theorem holds for all of them.  What the client
    itself does (the order of calls, the guards, the error values it builds,
    the string manipulation) is written out and executable. *)

From Stdlib Require Import String Ascii List ZArith Bool Arith Lia.
Import ListNotations.
Open Scope string_scope.

(** ** Go [error] values

    A non-nil [error] is one of: a value produced by the standard library,
    or one of the three wrappers of [github.com/pkg/errors] (their recorded
    call stacks are left out).  The nil error is [None] of [option error]. *)
Inductive error : Type :=
| stdlib_error (msg : string)
| fundamental (msg : string)
| withMessage (cause : error) (msg : string)
| withStack (err : error).

(** [err.Error()]. *)
Fixpoint Error (err : error) : string :=
  match err with
  | stdlib_error msg => msg
  | fundamental msg => msg
  | withMessage cause msg => msg ++ ": " ++ Error cause
  | withStack e => Error e
  end.

(** [errors.Cause(err)]: strips every wrapper that has a [Cause] method. *)
Fixpoint Cause (err : error) : error :=
  match err with
  | withMessage cause _ => Cause cause
  | withStack e => Cause e
  | _ => err
  end.

(** [errors.WithStack(err)] and [errors.Wrap(err, message)] on a non-nil
    [err] (every call site of the client is guarded by [err != nil]). *)
Definition WithStack (err : error) : error := withStack err.

Definition Wrap (err : error) (message : string) : error :=
  withStack (withMessage err message).

(** ** [fmt.Sprintf], for formats whose only verbs are [%s] and [%%] and
    whose operands are strings.  A missing operand prints as
    [%!s(MISSING)], operands left over as [%!(EXTRA string=...)]. *)
Definition Sprintf_extra (args : list string) : string :=
  match args with
  | [] => ""
  | _ => "%!(EXTRA " ++ String.concat ", " (map (fun a => "string=" ++ a) args) ++ ")"
  end.

Fixpoint Sprintf (format : string) (args : list string) : string :=
  match format with
  | EmptyString => Sprintf_extra args
  | String c rest =>
      if Ascii.eqb c "%" then
        match rest with
        | String v rest' =>
            if Ascii.eqb v "s" then
              match args with
              | a :: args' => a ++ Sprintf rest' args'
              | [] => "%!s(MISSING)" ++ Sprintf rest' []
              end
            else if Ascii.eqb v "%" then String "%" (Sprintf rest' args)
            else String c (Sprintf rest args)
        | EmptyString => "%!(NOVERB)" ++ Sprintf_extra args
        end
      else String c (Sprintf rest args)
  end.

(** [errors.Errorf(format, args...)]. *)
Definition Errorf (format : string) (args : list string) : error :=
  fundamental (Sprintf format args).

(** ** [strings.Split], [strings.Join] and slicing *)

(** [strings.Split(s, sep)] for a one-byte separator, which is how the
    client calls it ([sep = "/"]). *)
Fixpoint Split (s : string) (sep : ascii) : list string :=
  match s with
  | EmptyString => [EmptyString]
  | String c rest =>
      if Ascii.eqb c sep then EmptyString :: Split rest sep
      else
        match Split rest sep with
        | piece :: pieces => String c piece :: pieces
        | [] => [String c EmptyString]
        end
  end.

(** [strings.Join(elems, sep)]. *)
Definition Join (elems : list string) (sep : string) : string :=
  String.concat sep elems.

(** The slice expression [l[lo:hi]].  [None] is the run-time panic
    "slice bounds out of range" ([strings.Split] returns a slice whose
    capacity is its length). *)
Definition slice {A : Type} (l : list A) (lo hi : nat) : option (list A) :=
  if (lo <=? hi)%nat && (hi <=? length l)%nat
  then Some (firstn (hi - lo) (skipn lo l))
  else None.

(** ** The data model of [api.go] *)

Record Repo : Type := { Description : string; Homepage : string }.

Record Asset : Type := { Name : string; URL : string }.

Record Release : Type := { TagName : string; Assets : list Asset }.

(** ** [net/url] and [net/http] values *)

(** The two fields of [url.URL] the client reads. *)
Record url_URL : Type := { Host : string; Path : string }.

(** [http.Header]: a map from header names to their values. *)
Definition http_Header : Type := list (string * list string).

(** [h.Clone()]: a copy, equal to [h] as a value. *)
Definition Header_Clone (h : http_Header) : http_Header :=
  map (fun kv => (fst kv, snd kv)) h.

(** [RequestURL] is the string the request was built from
    ([http.NewRequest] keeps its parsed form). *)
Record http_Request : Type :=
  { Method : string; RequestURL : string; Header : http_Header }.

(** A response body ([io.ReadCloser]): the stream of bytes the server sends. *)
Record ReadCloser : Type := { content : string }.

Record http_Response : Type :=
  { Status : string; StatusCode : Z; Body : ReadCloser }.

(** Modelled from the spec: [TokenAuthenticatedTransport(base, token)] is
    defined in another file of the package, which is not among the sources.
    The spec describes it as a decorator over a base transport ([nil]: the
    system default) that adds a credential derived from [token] to every
    request; the model keeps the two arguments and nothing else. *)
#[warnings="-register-all"]
Inductive RoundTripper : Type :=
| TokenAuthenticatedTransport (base : option RoundTripper) (token : string).

(** [http.Client]; a nil [Transport] means [http.DefaultTransport]. *)
Record http_Client : Type := { Transport : option RoundTripper }.

(** [http.DefaultClient], that is [&http.Client{}]. *)
Definition http_DefaultClient : http_Client := {| Transport := None |}.

(** [type Client struct { client *http.Client }]. *)
Record Client : Type := { client : http_Client }.

(** ** Effects

    The client talks to the outside world in three ways: it calls
    [a.client.Do] with a request, it lets the JSON decoder read a response
    body, and it closes a response body.  A run is a function on the trace
    of such events, oldest first.  [RoundTrip c req] is one call
    [c.Do(req)]: [net/http] sends [req] and, when the server redirects,
    the follow-up requests of its own; the client sees one call and its
    result. *)
Inductive Event : Type :=
| RoundTrip (c : http_Client) (req : http_Request)
| BodyRead (b : ReadCloser)
| BodyClose (b : ReadCloser).

Definition Trace : Type := list Event.

Definition IO (A : Type) : Type := Trace -> A * Trace.

Definition ret {A : Type} (x : A) : IO A := fun tr => (x, tr).

Definition bind {A B : Type} (m : IO A) (k : A -> IO B) : IO B :=
  fun tr => let (x, tr') := m tr in k x tr'.

Notation "x <- m ;; k" := (bind m (fun x => k))
  (at level 100, m at next level, right associativity).

(** [emit e]: the event [e] happens. *)
Definition emit (e : Event) : IO unit := fun tr => (tt, (tr ++ [e])%list).

(** [defer cleanup] followed by the rest of the function body: the deferred
    call runs when the body returns, whatever it returns. *)
Definition defer {A : Type} (cleanup : IO unit) (body : IO A) : IO A :=
  x <- body ;; _ <- cleanup ;; ret x.

(** The number of calls of [http.Client.Do] in a trace. *)
Definition Do_calls (tr : Trace) : nat :=
  length (filter (fun e => match e with RoundTrip _ _ => true | _ => false end) tr).

(** The destinations [decode] is called with: [*Repo], [*Release] and
    [*[]Release].  [decode] receives them as [interface{}]; the model keeps
    the Go type as an index. *)
Inductive DestKind : Type := KRepo | KRelease | KReleases.

Definition Dest (k : DestKind) : Type :=
  match k with
  | KRepo => Repo
  | KRelease => Release
  | KReleases => list Release
  end.


(** ** A sample environment

    Concrete stand-ins for the standard library, used to run the model on
    examples.  They agree with Go on the inputs the examples use. *)

(** ASCII control bytes, which [net/url] refuses anywhere in a URL. *)
Definition is_CTL (c : ascii) : bool :=
  (nat_of_ascii c <? 32)%nat || (nat_of_ascii c =? 127)%nat.

Fixpoint has_CTL (s : string) : bool :=
  match s with
  | EmptyString => false
  | String c rest => is_CTL c || has_CTL rest
  end.

Definition sample_check (method url : string) : option error :=
  if has_CTL url
  then Some (stdlib_error "net/url: invalid control character in URL")
  else None.

(** The text after the first [://] of [s], if any. *)
Fixpoint after_scheme (s : string) : option string :=
  match s with
  | EmptyString => None
  | String _ rest =>
      if String.prefix "://" s then Some (substring 3 (String.length s - 3) s)
      else after_scheme rest
  end.

(** [s] cut before its first [/]. *)
Fixpoint host_path (s : string) : string * string :=
  match s with
  | EmptyString => ("", "")
  | String c rest =>
      if Ascii.eqb c "/" then ("", s)
      else let (h, p) := host_path rest in (String c h, p)
  end.

(** A URL parser for strings of the form [scheme://host/path] without
    user information, port, query, fragment or escapes. *)
Definition sample_Parse (s : string) : url_URL + error :=
  if has_CTL s
  then inr (stdlib_error "net/url: invalid control character in URL")
  else
    match after_scheme s with
    | Some rest => let (h, p) := host_path rest in inl {| Host := h; Path := p |}
    | None => inl {| Host := ""; Path := s |}
    end.

(** The JSON text [{"description":"d","homepage":"h"}]. *)
Definition sample_repo_json : string :=
  let q := String (ascii_of_nat 34) "" in
  "{" ++ q ++ "description" ++ q ++ ":" ++ q ++ "d" ++ q ++ ","
      ++ q ++ "homepage" ++ q ++ ":" ++ q ++ "h" ++ q ++ "}".

(** A small server: repository metadata for [cashapp/hermit], an empty
    release list, a truncated body for the latest release, 404 for the rest
    of the API origin, and no route to any other host. *)
Definition sample_transport (tr : Trace) (c : http_Client) (req : http_Request)
  : http_Response + error :=
  let u := RequestURL req in
  if u =? "https://api.github.com/repos/cashapp/hermit" then
    inl {| Status := "200 OK"; StatusCode := 200; Body := {| content := sample_repo_json |} |}
  else if u =? "https://api.github.com/repos/cashapp/hermit/releases" then
    inl {| Status := "200 OK"; StatusCode := 200; Body := {| content := "[]" |} |}
  else if u =? "https://api.github.com/repos/cashapp/hermit/releases/latest" then
    inl {| Status := "200 OK"; StatusCode := 200; Body := {| content := "{" |} |}
  else if String.prefix "https://api.github.com/" u then
    inl {| Status := "404 Not Found"; StatusCode := 404; Body := {| content := "{}" |} |}
  else inr (stdlib_error "dial tcp: connection refused").

(** A decoder that knows three JSON texts: [sample_repo_json], the empty
    object and the empty array. *)
Definition sample_Decode (tr : Trace) (k : DestKind) (b : ReadCloser)
  : Dest k -> Dest k * option error :=
  match k return Dest k -> Dest k * option error with
  | KRepo => fun d =>
      if content b =? sample_repo_json
      then ({| Description := "d"; Homepage := "h" |}, None)
      else if content b =? "{}" then (d, None)
      else (d, Some (stdlib_error "unexpected end of JSON input"))
  | KRelease => fun d =>
      if content b =? "{}" then (d, None)
      else (d, Some (stdlib_error "unexpected end of JSON input"))
  | KReleases => fun d =>
      if content b =? "[]" then ([], None)
      else (d, Some (stdlib_error "json: cannot unmarshal into Go value of type []github.Release"))
  end.



(** A repository name with a line feed in it. *)
Definition repo_with_newline : string := "cashapp/" ++ String "010" "hermit".


Definition control_asset : Asset :=
  {| Name := "hermit-linux-amd64.gz";
     URL := "https://example.com/" ++ String "127" "" |}.

Definition not_found : http_Response :=
  {| Status := "404 Not Found"; StatusCode := 404; Body := {| content := "{}" |} |}.

(** * The client *)

Section WithEnvironment.

(** [http.NewRequest]'s verdict on a method and a URL: [Some err] when it
    refuses them (the URL does not parse), [None] when it builds the request. *)
Variable NewRequest_check : string -> string -> option error.

(** What [c.Do(req)] returns, given everything that happened before. *)
Variable Do_outcome : Trace -> http_Client -> http_Request -> http_Response + error.

(** What [json.NewDecoder(body).Decode(dest)] leaves in [*dest] and returns,
    given everything that happened before. *)
Variable json_Decode :
  Trace -> forall k : DestKind, ReadCloser -> Dest k -> Dest k * option error.

(** [url.Parse]. *)
Variable url_Parse : string -> url_URL + error.

(** [http.NewRequest(method, url, nil)]: a request with no header yet. *)
Definition http_NewRequest (method url : string) : http_Request + error :=
  match NewRequest_check method url with
  | Some err => inr err
  | None => inl {| Method := method; RequestURL := url; Header := [] |}
  end.

(** [c.Do(req)]: one call of [http.Client.Do]; what it returns, after any
    redirects [net/http] follows, is [Do_outcome]. *)
Definition Do (c : http_Client) (req : http_Request) : IO (http_Response + error) :=
  fun tr => (Do_outcome tr c req, (tr ++ [RoundTrip c req])%list).

(** [json.NewDecoder(b).Decode(dest)]: returns the new contents of [*dest]
    and the decoder's error. *)
Definition Decode (k : DestKind) (b : ReadCloser) (dest : Dest k)
  : IO (Dest k * option error) :=
  fun tr => (json_Decode tr k b dest, (tr ++ [BodyRead b])%list).

(** [b.Close()]; the client ignores its result. *)
Definition Close (b : ReadCloser) : IO unit := emit (BodyClose b).

(** [func New(token string) *Client]. *)
Definition New (token : string) : Client :=
  let c :=
    if token =? "" then http_DefaultClient
    else {| Transport := Some (TokenAuthenticatedTransport None token) |} in
  {| client := c |}.

(** [func (a *Client) ProjectForURL(sourceURL string) string].  [None] is a
    run-time panic. *)
Definition ProjectForURL (a : Client) (sourceURL : string) : option string :=
  match url_Parse sourceURL with
  | inr _ => Some ""
  | inl u =>
      if negb (Host u =? "github.com") then Some ""
      else
        let parts := Split (Path u) "/" in
        if (length parts <? 3)%nat then Some ""
        else
          match slice parts 1 3 with
          | Some elems => Some (Join elems "/")
          | None => None
          end
  end.

(** [func (a *Client) request(url string, headers http.Header) ( *http.Request, error)]. *)
Definition request (a : Client) (url : string) (headers : http_Header)
  : http_Request + error :=
  match http_NewRequest "GET" url with
  | inr err => inr (WithStack err)
  | inl req =>
      inl {| Method := Method req;
             RequestURL := RequestURL req;
             Header := Header_Clone headers |}
  end.

(** [func (a *Client) decode(url string, dest interface{}) error].  The
    result is the final contents of [*dest] together with the returned
    error. *)
Definition decode (a : Client) (url : string) (k : DestKind) (dest : Dest k)
  : IO (Dest k * option error) :=
  match request a url [] with
  | inr err => ret (dest, Some (Wrap err url))
  | inl req =>
      r <- Do (client a) req ;;
      match r with
      | inr err => ret (dest, Some (Wrap err url))
      | inl resp =>
          defer (Close (Body resp))
            (if (StatusCode resp <? 200)%Z || (StatusCode resp >? 299)%Z then
               ret (dest, Some (Errorf "%s: GitHub API request failed with %s"
                                       [url; Status resp]))
             else
               d <- Decode k (Body resp) dest ;;
               match snd d with
               | Some err => ret (fst d, Some (Wrap err url))
               | None => ret (fst d, None)
               end)
      end
  end.

(** [func (a *Client) Repo(repo string) ( *Repo, error)]: the contents of the
    returned [*Repo] and the error. *)
Definition Client_Repo (a : Client) (repo : string) : IO (Repo * option error) :=
  let response := {| Description := ""; Homepage := "" |} in
  let url := "https://api.github.com/repos/" ++ repo in
  decode a url KRepo response.

(** [func (a *Client) LatestRelease(repo string) ( *Release, error)]. *)
Definition LatestRelease (a : Client) (repo : string) : IO (Release * option error) :=
  let url := "https://api.github.com/repos/" ++ repo ++ "/releases/latest" in
  let release := {| TagName := ""; Assets := [] |} in
  decode a url KRelease release.

(** [func (a *Client) Releases(repo string) (releases []Release, err error)].
    The named result [releases] starts out nil; the [return] statement reads
    it after the call to [decode] has written through [&releases], which is
    the order the Go compiler (gc) evaluates a variable and a call in. *)
Definition Releases (a : Client) (repo : string) : IO (list Release * option error) :=
  let url := Sprintf "https://api.github.com/repos/%s/releases" [repo] in
  decode a url KReleases [].

(** [func (a *Client) Download(asset Asset) (resp *http.Response, err error)]. *)
Definition Download (a : Client) (asset : Asset) : IO (http_Response + error) :=
  match request a (URL asset) [("Accept", ["application/octet-stream"])] with
  | inr err => ret (inr (WithStack err))
  | inl req => Do (client a) req
  end.

(** ** Vocabulary of the statements *)

(** The request [request] builds when [http.NewRequest] accepts the URL. *)
Definition GET (url : string) (headers : http_Header) : http_Request :=
  {| Method := "GET"; RequestURL := url; Header := headers |}.

(** The header [Download] asks for. *)
Definition accept_octet_stream : http_Header :=
  [("Accept", ["application/octet-stream"])].

(** The status codes [decode] accepts. *)
Definition success_status (code : Z) : Prop := (200 <= code <= 299)%Z.

(** The three operations that decode JSON, with the endpoint each one is
    documented to call, the Go type it decodes into, and the value its
    destination holds before the call. *)
Inductive Operation : Type := OpRepo | OpLatestRelease | OpReleases.

Definition endpoint (op : Operation) (repo : string) : string :=
  match op with
  | OpRepo => "https://api.github.com/repos/" ++ repo
  | OpLatestRelease => "https://api.github.com/repos/" ++ repo ++ "/releases/latest"
  | OpReleases => "https://api.github.com/repos/" ++ repo ++ "/releases"
  end.

Definition kind_of (op : Operation) : DestKind :=
  match op with
  | OpRepo => KRepo
  | OpLatestRelease => KRelease
  | OpReleases => KReleases
  end.

Definition zero_of (op : Operation) : Dest (kind_of op) :=
  match op return Dest (kind_of op) with
  | OpRepo => {| Description := ""; Homepage := "" |}
  | OpLatestRelease => {| TagName := ""; Assets := [] |}
  | OpReleases => []
  end.

Definition run (op : Operation) (a : Client) (repo : string)
  : IO (Dest (kind_of op) * option error) :=
  match op return IO (Dest (kind_of op) * option error) with
  | OpRepo => Client_Repo a repo
  | OpLatestRelease => LatestRelease a repo
  | OpReleases => Releases a repo
  end.

(** [result] is what the JSON decoder left in a destination that held
    [zero], having read the body of a 2xx response to a GET of [url] sent
    after [tr], and having reported no error. *)
Definition decoded_from (a : Client) (url : string) (k : DestKind)
    (zero : Dest k) (tr : Trace) (result : Dest k) : Prop :=
  exists resp : http_Response,
    NewRequest_check "GET" url = None /\
    Do_outcome tr (client a) (GET url []) = inl resp /\
    success_status (StatusCode resp) /\
    json_Decode (tr ++ [RoundTrip (client a) (GET url [])])%list k (Body resp) zero
      = (result, None).


(** The number of bytes of [s] equal to [c]. *)
Fixpoint occurrences (c : ascii) (s : string) : nat :=
  match s with
  | EmptyString => 0
  | String x rest =>
      if Ascii.eqb x c then S (occurrences c rest) else occurrences c rest
  end.

(** An event a client [a] may cause: a call of [Do] is a GET sent through
    [a]'s own HTTP client; reading and closing a body are unrestricted. *)
Definition own_GET (a : Client) (e : Event) : Prop :=
  match e with
  | RoundTrip c req => c = client a /\ Method req = "GET"
  | _ => True
  end.

(** The transport a client built from [token] sends with: nil (the default
    transport) without a token, the authenticating decorator with one. *)
Definition transport_for (token : string) : option RoundTripper :=
  if token =? "" then None else Some (TokenAuthenticatedTransport None token).

Definition sent_with (token : string) (e : Event) : Prop :=
  match e with
  | RoundTrip c _ => Transport c = transport_for token
  | _ => True
  end.

(** * Properties *)

(** ** Helper lemmas *)

Lemma Header_Clone_id (h : http_Header) : Header_Clone h = h.
Proof.
  unfold Header_Clone.
  induction h as [|[name values] h IH]; simpl; [reflexivity | now rewrite IH].
Qed.

Lemma request_accepted (a : Client) (url : string) (headers : http_Header) :
  NewRequest_check "GET" url = None ->
  request a url headers = inl (GET url headers).
Proof.
  intros Hcheck. unfold request, http_NewRequest. rewrite Hcheck. simpl.
  now rewrite Header_Clone_id.
Qed.

Lemma request_refused (a : Client) (url : string) (headers : http_Header) (err : error) :
  NewRequest_check "GET" url = Some err ->
  request a url headers = inr (WithStack err).
Proof.
  intros Hcheck. unfold request, http_NewRequest. now rewrite Hcheck.
Qed.

Lemma request_inv (a : Client) (url : string) (headers : http_Header) (req : http_Request) :
  request a url headers = inl req ->
  NewRequest_check "GET" url = None /\ req = GET url headers.
Proof.
  intros Hreq. destruct (NewRequest_check "GET" url) as [err|] eqn:Hcheck.
  - rewrite (request_refused a url headers err Hcheck) in Hreq. discriminate.
  - rewrite (request_accepted a url headers Hcheck) in Hreq. now inversion Hreq.
Qed.

Lemma status_guard (code : Z) :
  ((code <? 200) || (code >? 299))%Z = true <-> (code < 200 \/ 299 < code)%Z.
Proof.
  rewrite orb_true_iff, Z.ltb_lt, Z.gtb_ltb, Z.ltb_lt. reflexivity.
Qed.

Lemma status_guard_false (code : Z) :
  ((code <? 200) || (code >? 299))%Z = false <-> success_status code.
Proof.
  unfold success_status.
  rewrite orb_false_iff, Z.ltb_ge, Z.gtb_ltb, Z.ltb_ge. reflexivity.
Qed.

Lemma append_empty_r (s : string) : s ++ "" = s.
Proof. induction s as [|c s IH]; simpl; [reflexivity | now rewrite IH]. Qed.

Lemma Sprintf_status (url status : string) :
  Sprintf "%s: GitHub API request failed with %s" [url; status]
  = url ++ ": GitHub API request failed with " ++ status.
Proof.
  simpl. now rewrite append_empty_r.
Qed.

Lemma Sprintf_releases (repo : string) :
  Sprintf "https://api.github.com/repos/%s/releases" [repo]
  = "https://api.github.com/repos/" ++ repo ++ "/releases".
Proof. reflexivity. Qed.

(** Every run of [decode], path by path. *)
Lemma decode_refused (a : Client) (url : string) (k : DestKind) (dest : Dest k)
    (tr : Trace) (err : error) :
  NewRequest_check "GET" url = Some err ->
  decode a url k dest tr = ((dest, Some (Wrap (WithStack err) url)), tr).
Proof.
  intros Hcheck. unfold decode.
  now rewrite (request_refused a url [] err Hcheck).
Qed.

Lemma decode_transport_failure (a : Client) (url : string) (k : DestKind)
    (dest : Dest k) (tr : Trace) (err : error) :
  NewRequest_check "GET" url = None ->
  Do_outcome tr (client a) (GET url []) = inr err ->
  decode a url k dest tr
  = ((dest, Some (Wrap err url)), (tr ++ [RoundTrip (client a) (GET url [])])%list).
Proof.
  intros Hcheck Hdo. unfold decode.
  rewrite (request_accepted a url [] Hcheck).
  unfold bind, Do. now rewrite Hdo.
Qed.

Lemma decode_status_failure (a : Client) (url : string) (k : DestKind)
    (dest : Dest k) (tr : Trace) (resp : http_Response) :
  NewRequest_check "GET" url = None ->
  Do_outcome tr (client a) (GET url []) = inl resp ->
  (StatusCode resp < 200 \/ 299 < StatusCode resp)%Z ->
  decode a url k dest tr
  = ((dest, Some (fundamental (url ++ ": GitHub API request failed with " ++ Status resp))),
     (tr ++ [RoundTrip (client a) (GET url []); BodyClose (Body resp)])%list).
Proof.
  intros Hcheck Hdo Hcode. unfold decode.
  rewrite (request_accepted a url [] Hcheck).
  unfold bind, Do. rewrite Hdo.
  apply status_guard in Hcode.
  unfold defer, bind, Close, emit, ret. rewrite Hcode.
  unfold Errorf. rewrite Sprintf_status.
  now rewrite <- app_assoc.
Qed.

Lemma decode_decoded (a : Client) (url : string) (k : DestKind)
    (dest : Dest k) (tr : Trace) (resp : http_Response) :
  NewRequest_check "GET" url = None ->
  Do_outcome tr (client a) (GET url []) = inl resp ->
  success_status (StatusCode resp) ->
  let d := json_Decode (tr ++ [RoundTrip (client a) (GET url [])])%list k (Body resp) dest in
  decode a url k dest tr
  = ((fst d, option_map (fun err => Wrap err url) (snd d)),
     (tr ++ [RoundTrip (client a) (GET url []); BodyRead (Body resp);
             BodyClose (Body resp)])%list).
Proof.
  intros Hcheck Hdo Hcode d. unfold decode.
  rewrite (request_accepted a url [] Hcheck).
  unfold bind, Do. rewrite Hdo.
  apply status_guard_false in Hcode.
  unfold defer, bind, Close, emit, ret, Decode. rewrite Hcode.
  fold d. destruct (snd d) as [err|]; simpl; now rewrite <- !app_assoc.
Qed.

(** The client's three JSON operations are [decode] at their endpoint. *)
Lemma run_decode (op : Operation) (a : Client) (repo : string) :
  run op a repo = decode a (endpoint op repo) (kind_of op) (zero_of op).
Proof.
  destruct op; simpl; unfold Client_Repo, LatestRelease, Releases;
    try rewrite Sprintf_releases; reflexivity.
Qed.

(** ** The shared decode routine *)

(** C1.  Whenever [decode] receives an HTTP response, it returns an
    "API request failed" error (a [fundamental] error, the kind only
    [errors.Errorf] builds) if and only if the status code is outside
    [200, 299].  In that case the error's text is the URL, the fixed
    message and the response's status text; the destination is left as it
    was; and the only events are the round trip and the closing of the
    body: the decoder never reads it. *)
Theorem decode_status_error (a : Client) (url : string) (k : DestKind)
    (dest : Dest k) (tr : Trace) (req : http_Request) (resp : http_Response) :
  request a url [] = inl req ->
  Do_outcome tr (client a) req = inl resp ->
  ((exists msg, snd (fst (decode a url k dest tr)) = Some (fundamental msg))
   <-> (StatusCode resp < 200 \/ 299 < StatusCode resp)%Z)
  /\ ((StatusCode resp < 200 \/ 299 < StatusCode resp)%Z ->
      decode a url k dest tr
      = ((dest,
          Some (fundamental (url ++ ": GitHub API request failed with " ++ Status resp))),
         (tr ++ [RoundTrip (client a) req; BodyClose (Body resp)])%list)).
Proof.
  intros Hreq Hdo.
  destruct (request_inv a url [] req Hreq) as [Hcheck ->].
  split; [split|].
  - intros [msg Hmsg].
    destruct (Z.lt_ge_cases (StatusCode resp) 200) as [Hlo|Hlo]; [now left|].
    destruct (Z.lt_ge_cases 299 (StatusCode resp)) as [Hhi|Hhi]; [now right|].
    exfalso.
    assert (Hok : success_status (StatusCode resp)) by (unfold success_status; lia).
    rewrite (decode_decoded a url k dest tr resp Hcheck Hdo Hok) in Hmsg.
    cbn [fst snd] in Hmsg.
    destruct (snd (json_Decode _ k (Body resp) dest)); discriminate.
  - intros Hcode.
    rewrite (decode_status_failure a url k dest tr resp Hcheck Hdo Hcode).
    now eexists.
  - intros Hcode. exact (decode_status_failure a url k dest tr resp Hcheck Hdo Hcode).
Qed.

(** C8.  Whenever [decode] receives an HTTP response, the events it adds
    are the round trip, at most one read of the body by the decoder, and then
    the closing of that body as the last event before it returns; this
    holds for every status code and every outcome of the decoder. *)
Theorem decode_closes_body (a : Client) (url : string) (k : DestKind)
    (dest : Dest k) (tr : Trace) (req : http_Request) (resp : http_Response) :
  request a url [] = inl req ->
  Do_outcome tr (client a) req = inl resp ->
  exists reads : Trace,
    snd (decode a url k dest tr)
    = (tr ++ [RoundTrip (client a) req] ++ reads ++ [BodyClose (Body resp)])%list
    /\ (reads = [] \/ reads = [BodyRead (Body resp)]).
Proof.
  intros Hreq Hdo.
  destruct (request_inv a url [] req Hreq) as [Hcheck ->].
  destruct (Z.lt_ge_cases (StatusCode resp) 200) as [Hlo|Hlo];
    [|destruct (Z.lt_ge_cases 299 (StatusCode resp)) as [Hhi|Hhi]].
  - exists []. split; [|now left].
    now rewrite (decode_status_failure a url k dest tr resp Hcheck Hdo (or_introl Hlo)).
  - exists []. split; [|now left].
    now rewrite (decode_status_failure a url k dest tr resp Hcheck Hdo (or_intror Hhi)).
  - exists [BodyRead (Body resp)]. split; [|now right].
    assert (Hok : success_status (StatusCode resp)) by (unfold success_status; lia).
    now rewrite (decode_decoded a url k dest tr resp Hcheck Hdo Hok).
Qed.

(** C2.  Each of [Repo], [LatestRelease] and [Releases], on every run:
    if it returns a nil error, its result is exactly what the JSON decoder
    produced, without reporting an error, from the body of a 2xx response to
    the operation's request; so a result returned with a nil error is never
    one the decoder gave up on.  And whenever the decoder reports a failure
    [cause] on a 2xx response, the operation returns the non-nil error
    [errors.Wrap(cause, url)], whose cause is that of the parse failure. *)
Theorem json_operation_result_or_error (op : Operation) (a : Client)
    (repo : string) (tr : Trace) :
  (snd (fst (run op a repo tr)) = None ->
   decoded_from a (endpoint op repo) (kind_of op) (zero_of op) tr
     (fst (fst (run op a repo tr))))
  /\ (forall (resp : http_Response) (partial : Dest (kind_of op)) (cause : error),
        NewRequest_check "GET" (endpoint op repo) = None ->
        Do_outcome tr (client a) (GET (endpoint op repo) []) = inl resp ->
        success_status (StatusCode resp) ->
        json_Decode (tr ++ [RoundTrip (client a) (GET (endpoint op repo) [])])%list
          (kind_of op) (Body resp) (zero_of op) = (partial, Some cause) ->
        fst (run op a repo tr) = (partial, Some (Wrap cause (endpoint op repo)))
        /\ Cause (Wrap cause (endpoint op repo)) = Cause cause).
Proof.
  rewrite run_decode.
  set (url := endpoint op repo). set (k := kind_of op). set (zero := zero_of op).
  split.
  - destruct (NewRequest_check "GET" url) as [err|] eqn:Hcheck.
    { rewrite (decode_refused a url k zero tr err Hcheck). discriminate. }
    destruct (Do_outcome tr (client a) (GET url [])) as [resp|err] eqn:Hdo.
    2:{ rewrite (decode_transport_failure a url k zero tr err Hcheck Hdo). discriminate. }
    destruct (Z.lt_ge_cases (StatusCode resp) 200) as [Hlo|Hlo].
    { rewrite (decode_status_failure a url k zero tr resp Hcheck Hdo (or_introl Hlo)).
      discriminate. }
    destruct (Z.lt_ge_cases 299 (StatusCode resp)) as [Hhi|Hhi].
    { rewrite (decode_status_failure a url k zero tr resp Hcheck Hdo (or_intror Hhi)).
      discriminate. }
    assert (Hok : success_status (StatusCode resp)) by (unfold success_status; lia).
    rewrite (decode_decoded a url k zero tr resp Hcheck Hdo Hok). cbn [fst snd].
    intros Hnil. exists resp. repeat split; try assumption; try apply Hok.
    destruct (json_Decode _ k (Body resp) zero) as [result [err|]]; [discriminate|].
    reflexivity.
  - intros resp partial cause Hcheck Hdo Hok Hjson.
    rewrite (decode_decoded a url k zero tr resp Hcheck Hdo Hok), Hjson.
    split; reflexivity.
Qed.

(** ** Transport failures, endpoints and calls *)





(** C6.  [Download], for every asset: if [http.NewRequest] refuses the
    asset's URL it returns that error (wrapped by [errors.WithStack] in
    [request] and again in [Download]) and nothing happens; otherwise it
    sends one GET request to [asset.URL] whose only header is
    [Accept: application/octet-stream], and returns exactly what the
    transport returned, response or error, whatever the status code.  The
    only event is that round trip: the body is neither read nor closed. *)
Theorem Download_hands_over_response (a : Client) (asset : Asset) (tr : Trace) :
  (forall err : error,
      NewRequest_check "GET" (URL asset) = Some err ->
      Download a asset tr = (inr (WithStack (WithStack err)), tr))
  /\ (NewRequest_check "GET" (URL asset) = None ->
      Download a asset tr
      = (Do_outcome tr (client a) (GET (URL asset) accept_octet_stream),
         (tr ++ [RoundTrip (client a) (GET (URL asset) accept_octet_stream)])%list)).
Proof.
  split.
  - intros err Hcheck. unfold Download.
    now rewrite (request_refused a (URL asset) _ err Hcheck).
  - intros Hcheck. unfold Download.
    now rewrite (request_accepted a (URL asset) _ Hcheck).
Qed.

(** C9 (amended).  Each of [Repo], [LatestRelease] and [Releases]: when
    [http.NewRequest] accepts the endpoint URL, the first new event is a
    call of [http.Client.Do] with a GET request for exactly that URL, with
    no header, and the operation never calls [Do] again, whatever comes
    back; the exchanges inside that one call, redirects included, are
    [net/http]'s.  When [http.NewRequest] refuses the URL, the operation
    returns the untouched result with that error, wrapped by
    [errors.WithStack] and then by [errors.Wrap] with the URL, and there is
    no event at all. *)
Theorem json_operation_calls_Do_once (op : Operation) (a : Client) (repo : string)
    (tr : Trace) :
  (NewRequest_check "GET" (endpoint op repo) = None ->
   exists rest : Trace,
     snd (run op a repo tr)
     = (tr ++ RoundTrip (client a) (GET (endpoint op repo) []) :: rest)%list
     /\ Do_calls rest = 0)
  /\ (forall err : error,
        NewRequest_check "GET" (endpoint op repo) = Some err ->
        run op a repo tr
        = ((zero_of op, Some (Wrap (WithStack err) (endpoint op repo))), tr)).
Proof.
  rewrite run_decode.
  set (url := endpoint op repo). set (k := kind_of op). set (zero := zero_of op).
  split.
  - intros Hcheck.
    destruct (Do_outcome tr (client a) (GET url [])) as [resp|err] eqn:Hdo.
    2:{ exists []. now rewrite (decode_transport_failure a url k zero tr err Hcheck Hdo). }
    destruct (Z.lt_ge_cases (StatusCode resp) 200) as [Hlo|Hlo];
      [|destruct (Z.lt_ge_cases 299 (StatusCode resp)) as [Hhi|Hhi]].
    + exists [BodyClose (Body resp)].
      now rewrite (decode_status_failure a url k zero tr resp Hcheck Hdo (or_introl Hlo)).
    + exists [BodyClose (Body resp)].
      now rewrite (decode_status_failure a url k zero tr resp Hcheck Hdo (or_intror Hhi)).
    + exists [BodyRead (Body resp); BodyClose (Body resp)].
      assert (Hok : success_status (StatusCode resp)) by (unfold success_status; lia).
      now rewrite (decode_decoded a url k zero tr resp Hcheck Hdo Hok).
  - intros err Hcheck. exact (decode_refused a url k zero tr err Hcheck).
Qed.

(** ** Construction *)

(** C7.  [New] is a total function that touches no trace.  With the empty
    token the client holds [http.DefaultClient], whose transport is nil (the
    default one, no decorator); with any other token it holds a client whose
    transport is [TokenAuthenticatedTransport(nil, token)]. *)
Theorem New_transport (token : string) :
  (token = "" ->
   client (New token) = http_DefaultClient /\ Transport (client (New token)) = None)
  /\ (token <> "" ->
      New token
      = {| client := {| Transport := Some (TokenAuthenticatedTransport None token) |} |}).
Proof.
  unfold New. split.
  - intros ->. split; reflexivity.
  - intros Hne. apply String.eqb_neq in Hne. now rewrite Hne.
Qed.

(** ** ProjectForURL *)

(** [Split] is [strings.Split]: it never returns an empty slice, and
    joining its parts with the separator gives the string back. *)
Lemma Split_not_nil (s : string) (sep : ascii) : Split s sep <> [].
Proof.
  destruct s as [|c rest]; simpl; [discriminate |].
  destruct (Ascii.eqb c sep); [discriminate |].
  destruct (Split rest sep); discriminate.
Qed.

Lemma Join_Split (s : string) (sep : ascii) :
  Join (Split s sep) (String sep "") = s.
Proof.
  unfold Join. induction s as [|c rest IH]; simpl; [reflexivity |].
  pose proof (Split_not_nil rest sep) as Hne.
  destruct (Ascii.eqb_spec c sep) as [->|Hc].
  - destruct (Split rest sep) as [|piece pieces]; [contradiction |].
    cbn [String.concat]. cbn [String.concat] in IH. now rewrite IH.
  - destruct (Split rest sep) as [|piece pieces]; [contradiction |].
    destruct pieces as [|piece' pieces]; simpl in *; now rewrite IH.
Qed.

Lemma slice_in_bounds {A : Type} (l : list A) (lo hi : nat) :
  lo <= hi -> hi <= length l ->
  slice l lo hi = Some (firstn (hi - lo) (skipn lo l)).
Proof.
  intros Hlo Hhi. unfold slice.
  apply Nat.leb_le in Hlo. apply Nat.leb_le in Hhi. now rewrite Hlo, Hhi.
Qed.

Lemma ProjectForURL_github (a : Client) (sourceURL : string) (u : url_URL) :
  url_Parse sourceURL = inl u ->
  Host u = "github.com" ->
  3 <= length (Split (Path u) "/") ->
  ProjectForURL a sourceURL
  = Some (Join (firstn 2 (skipn 1 (Split (Path u) "/"))) "/").
Proof.
  intros Hparse Hhost Hlen. unfold ProjectForURL.
  rewrite Hparse, Hhost. cbn [negb String.eqb].
  change ("github.com" =? "github.com") with true. cbn [negb].
  destruct (Nat.ltb_spec (length (Split (Path u) "/")) 3) as [Hlt|_]; [lia|].
  rewrite (slice_in_bounds _ 1 3) by lia. reflexivity.
Qed.

(** C3.  When the input parses as a URL whose host is [github.com] and
    whose path splits on [/] into at least three parts, [ProjectForURL]
    returns parts 1 and 2, joined by one [/], whatever parts follow. *)
Theorem ProjectForURL_owner_project (a : Client) (sourceURL : string) (u : url_URL) :
  url_Parse sourceURL = inl u ->
  Host u = "github.com" ->
  3 <= length (Split (Path u) "/") ->
  ProjectForURL a sourceURL
  = Some (nth 1 (Split (Path u) "/") "" ++ "/" ++ nth 2 (Split (Path u) "/") "").
Proof.
  intros Hparse Hhost Hlen.
  rewrite (ProjectForURL_github a sourceURL u Hparse Hhost Hlen).
  destruct (Split (Path u) "/") as [|p0 [|owner [|project rest]]];
    simpl in Hlen; try lia.
  reflexivity.
Qed.

(** C4.  [ProjectForURL] returns a string on every input (it has no error
    result, and the slice expression never panics), and that string is
    empty when the input does not parse, when the host is not
    [github.com], and when the path splits into fewer than three parts. *)
Theorem ProjectForURL_never_fails (a : Client) (sourceURL : string) :
  (exists project : string, ProjectForURL a sourceURL = Some project)
  /\ (forall err : error,
        url_Parse sourceURL = inr err -> ProjectForURL a sourceURL = Some "")
  /\ (forall u : url_URL,
        url_Parse sourceURL = inl u -> Host u <> "github.com" ->
        ProjectForURL a sourceURL = Some "")
  /\ (forall u : url_URL,
        url_Parse sourceURL = inl u -> length (Split (Path u) "/") < 3 ->
        ProjectForURL a sourceURL = Some "").
Proof.
  repeat split.
  - destruct (url_Parse sourceURL) as [u|err] eqn:Hparse.
    2:{ exists "". unfold ProjectForURL. now rewrite Hparse. }
    destruct (String.eqb_spec (Host u) "github.com") as [Hhost|Hhost].
    + destruct (Nat.lt_ge_cases (length (Split (Path u) "/")) 3) as [Hlt|Hge].
      * exists "". unfold ProjectForURL. rewrite Hparse, Hhost.
        change ("github.com" =? "github.com") with true. cbn [negb].
        apply Nat.ltb_lt in Hlt. now rewrite Hlt.
      * eexists. exact (ProjectForURL_github a sourceURL u Hparse Hhost Hge).
    + exists "". unfold ProjectForURL. rewrite Hparse.
      apply String.eqb_neq in Hhost. now rewrite Hhost.
  - intros err Hparse. unfold ProjectForURL. now rewrite Hparse.
  - intros u Hparse Hhost. unfold ProjectForURL. rewrite Hparse.
    apply String.eqb_neq in Hhost. now rewrite Hhost.
  - intros u Hparse Hlt. unfold ProjectForURL. rewrite Hparse.
    apply Nat.ltb_lt in Hlt. rewrite Hlt.
    now destruct (negb (Host u =? "github.com")).
Qed.

(** C10.  When the host is [github.com] and the path splits on [/] into
    exactly three parts of which the last is empty, as [/owner/] does,
    [ProjectForURL] returns the second part followed by [/]: a non-empty
    string with an empty project name. *)
Theorem ProjectForURL_trailing_slash (a : Client) (sourceURL : string)
    (u : url_URL) (p0 owner : string) :
  url_Parse sourceURL = inl u ->
  Host u = "github.com" ->
  Split (Path u) "/" = [p0; owner; ""] ->
  ProjectForURL a sourceURL = Some (owner ++ "/")
  /\ owner ++ "/" <> "".
Proof.
  intros Hparse Hhost Hsplit. split.
  - rewrite (ProjectForURL_github a sourceURL u Hparse Hhost) by (rewrite Hsplit; simpl; lia).
    rewrite Hsplit. reflexivity.
  - destruct owner; discriminate.
Qed.

(** * Further properties *)

(** ** How [ProjectForURL] reads a path *)

Lemma Split_length (s : string) (sep : ascii) :
  length (Split s sep) = S (occurrences sep s).
Proof.
  induction s as [|c rest IH]; simpl; [reflexivity |].
  destruct (Ascii.eqb c sep); simpl; [now rewrite IH |].
  destruct (Split rest sep) as [|piece pieces]; simpl in *; lia.
Qed.

Lemma Split_parts_no_sep (s : string) (sep : ascii) :
  Forall (fun part => occurrences sep part = 0) (Split s sep).
Proof.
  induction s as [|c rest IH]; simpl.
  - repeat constructor.
  - destruct (Ascii.eqb c sep) eqn:Hc.
    + constructor; [reflexivity | exact IH].
    + destruct (Split rest sep) as [|piece pieces].
      * constructor; [simpl; now rewrite Hc | constructor].
      * inversion IH as [|? ? Hpiece Hpieces]; subst.
        constructor; [simpl; now rewrite Hc | exact Hpieces].
Qed.

Lemma Split_no_sep (x : string) (sep : ascii) :
  occurrences sep x = 0 -> Split x sep = [x].
Proof.
  induction x as [|c rest IH]; simpl; [reflexivity |].
  destruct (Ascii.eqb c sep); [discriminate |].
  intros Hrest. now rewrite (IH Hrest).
Qed.

Lemma Split_app_sep (x y : string) (sep : ascii) :
  occurrences sep x = 0 ->
  Split (x ++ String sep y) sep = x :: Split y sep.
Proof.
  induction x as [|c rest IH]; simpl.
  - intros _. now rewrite Ascii.eqb_refl.
  - destruct (Ascii.eqb c sep); [discriminate |].
    intros Hrest. now rewrite (IH Hrest).
Qed.

Lemma occurrences_app (c : ascii) (x y : string) :
  occurrences c (x ++ y) = occurrences c x + occurrences c y.
Proof.
  induction x as [|b rest IH]; simpl; [reflexivity |].
  destruct (Ascii.eqb b c); simpl; now rewrite IH.
Qed.

(** X1.  For a URL whose host is [github.com], [ProjectForURL] returns the
    empty string exactly when the path holds fewer than two [/]. *)
Theorem ProjectForURL_empty_iff_few_slashes (a : Client) (sourceURL : string)
    (u : url_URL) :
  url_Parse sourceURL = inl u ->
  Host u = "github.com" ->
  (ProjectForURL a sourceURL = Some "" <-> occurrences "/" (Path u) < 2).
Proof.
  intros Hparse Hhost.
  pose proof (Split_length (Path u) "/") as Hlen.
  split.
  - intros Hempty.
    destruct (Nat.lt_ge_cases (occurrences "/" (Path u)) 2) as [Hlt|Hge]; [exact Hlt |].
    rewrite (ProjectForURL_github a sourceURL u Hparse Hhost) in Hempty by lia.
    destruct (Split (Path u) "/") as [|p0 [|owner [|name rest]]];
      simpl in Hlen; try lia.
    simpl in Hempty. destruct owner; discriminate.
  - intros Hlt. unfold ProjectForURL. rewrite Hparse, Hhost.
    change ("github.com" =? "github.com") with true. cbn [negb].
    assert (Hshort : (length (Split (Path u) "/") <? 3)%nat = true)
      by (apply Nat.ltb_lt; lia).
    now rewrite Hshort.
Qed.

(** X2.  For a URL whose host is [github.com] and whose path is
    [/owner/name], possibly followed by [/] and anything, where neither
    [owner] nor [name] holds a [/], [ProjectForURL] returns [owner/name]. *)
Theorem ProjectForURL_of_path (a : Client) (sourceURL : string) (u : url_URL)
    (owner name tail : string) :
  url_Parse sourceURL = inl u ->
  Host u = "github.com" ->
  occurrences "/" owner = 0 ->
  occurrences "/" name = 0 ->
  tail = "" \/ (exists t : string, tail = String "/" t) ->
  Path u = "/" ++ owner ++ "/" ++ name ++ tail ->
  ProjectForURL a sourceURL = Some (owner ++ "/" ++ name).
Proof.
  intros Hparse Hhost Howner Hname Htail Hpath.
  assert (Hsplit : exists rest, Split (Path u) "/" = "" :: owner :: name :: rest).
  { rewrite Hpath. cbn [append]. cbn [Split]. rewrite Ascii.eqb_refl.
    change ("/" ++ name ++ tail) with (String "/" (name ++ tail)).
    rewrite (Split_app_sep owner (name ++ tail) "/" Howner).
    destruct Htail as [-> | [t ->]].
    - exists []. now rewrite append_empty_r, (Split_no_sep name "/" Hname).
    - exists (Split t "/"). now rewrite (Split_app_sep name t "/" Hname). }
  destruct Hsplit as [rest Hsplit].
  rewrite (ProjectForURL_github a sourceURL u Hparse Hhost) by (rewrite Hsplit; simpl; lia).
  now rewrite Hsplit.
Qed.

(** X3.  A non-empty result of [ProjectForURL] only comes from a URL whose
    host is [github.com]; it is parts 1 and 2 of the path around one [/],
    and neither part holds a [/], so the result holds exactly one. *)
Theorem ProjectForURL_nonempty_result (a : Client) (sourceURL project : string) :
  ProjectForURL a sourceURL = Some project ->
  project <> "" ->
  exists (u : url_URL) (owner name : string),
    url_Parse sourceURL = inl u
    /\ Host u = "github.com"
    /\ nth_error (Split (Path u) "/") 1 = Some owner
    /\ nth_error (Split (Path u) "/") 2 = Some name
    /\ project = owner ++ "/" ++ name
    /\ occurrences "/" project = 1.
Proof.
  intros Hresult Hne. unfold ProjectForURL in Hresult.
  destruct (url_Parse sourceURL) as [u|err] eqn:Hparse; [| congruence].
  destruct (String.eqb_spec (Host u) "github.com") as [Hhost|Hhost];
    cbn [negb] in Hresult; [| congruence].
  destruct (Nat.ltb_spec (length (Split (Path u) "/")) 3) as [Hlt|Hge]; [congruence |].
  rewrite (slice_in_bounds _ 1 3) in Hresult by lia.
  pose proof (Split_parts_no_sep (Path u) "/") as Hparts.
  destruct (Split (Path u) "/") as [|p0 [|owner [|name rest]]] eqn:Hsplit;
    simpl in Hge; try lia.
  inversion Hparts as [|? ? _ Htail]; subst.
  inversion Htail as [|? ? Howner Htail']; subst.
  inversion Htail' as [|? ? Hname _]; subst.
  exists u, owner, name. rewrite Hsplit.
  assert (Hproject : project = owner ++ "/" ++ name)
    by (injection Hresult as <-; reflexivity).
  repeat split; try assumption; try reflexivity.
  rewrite Hproject, occurrences_app. cbn [append occurrences].
  rewrite Ascii.eqb_refl. lia.
Qed.

(** ** Every path through [decode] *)

Lemma decode_cases (a : Client) (url : string) (k : DestKind) (dest : Dest k)
    (tr : Trace) :
  (exists err : error,
      NewRequest_check "GET" url = Some err
      /\ decode a url k dest tr = ((dest, Some (Wrap (WithStack err) url)), tr))
  \/ (exists err : error,
        decode a url k dest tr
        = ((dest, Some (Wrap err url)),
           (tr ++ [RoundTrip (client a) (GET url [])])%list))
  \/ (exists resp : http_Response,
        decode a url k dest tr
        = ((dest,
            Some (fundamental
                    (url ++ ": GitHub API request failed with " ++ Status resp))),
           (tr ++ [RoundTrip (client a) (GET url []); BodyClose (Body resp)])%list))
  \/ (exists (resp : http_Response) (d : Dest k * option error),
        decode a url k dest tr
        = ((fst d, option_map (fun err => Wrap err url) (snd d)),
           (tr ++ [RoundTrip (client a) (GET url []); BodyRead (Body resp);
                   BodyClose (Body resp)])%list)).
Proof.
  destruct (NewRequest_check "GET" url) as [err|] eqn:Hcheck.
  { left. exists err. split; [reflexivity |]. exact (decode_refused a url k dest tr err Hcheck). }
  right.
  destruct (Do_outcome tr (client a) (GET url [])) as [resp|err] eqn:Hdo.
  2:{ left. exists err. exact (decode_transport_failure a url k dest tr err Hcheck Hdo). }
  right.
  destruct (Z.lt_ge_cases (StatusCode resp) 200) as [Hlo|Hlo].
  { left. exists resp.
    exact (decode_status_failure a url k dest tr resp Hcheck Hdo (or_introl Hlo)). }
  destruct (Z.lt_ge_cases 299 (StatusCode resp)) as [Hhi|Hhi].
  { left. exists resp.
    exact (decode_status_failure a url k dest tr resp Hcheck Hdo (or_intror Hhi)). }
  right. exists resp. eexists.
  apply (decode_decoded a url k dest tr resp Hcheck Hdo).
  unfold success_status. lia.
Qed.

(** What [decode] does to the outside world depends on the URL only, not
    on the destination. *)
Lemma decode_trace (a : Client) (url : string) (k : DestKind) (dest : Dest k)
    (tr : Trace) :
  snd (decode a url k dest tr)
  = match NewRequest_check "GET" url with
    | Some _ => tr
    | None =>
        match Do_outcome tr (client a) (GET url []) with
        | inr _ => (tr ++ [RoundTrip (client a) (GET url [])])%list
        | inl resp =>
            if ((StatusCode resp <? 200) || (StatusCode resp >? 299))%Z
            then (tr ++ [RoundTrip (client a) (GET url []);
                         BodyClose (Body resp)])%list
            else (tr ++ [RoundTrip (client a) (GET url []);
                         BodyRead (Body resp); BodyClose (Body resp)])%list
        end
    end.
Proof.
  destruct (NewRequest_check "GET" url) as [err|] eqn:Hcheck.
  { now rewrite (decode_refused a url k dest tr err Hcheck). }
  destruct (Do_outcome tr (client a) (GET url [])) as [resp|err] eqn:Hdo.
  2:{ now rewrite (decode_transport_failure a url k dest tr err Hcheck Hdo). }
  destruct ((StatusCode resp <? 200) || (StatusCode resp >? 299))%Z eqn:Hcode.
  - apply status_guard in Hcode.
    now rewrite (decode_status_failure a url k dest tr resp Hcheck Hdo Hcode).
  - apply status_guard_false in Hcode.
    now rewrite (decode_decoded a url k dest tr resp Hcheck Hdo Hcode).
Qed.

Lemma decode_events (a : Client) (url : string) (k : DestKind) (dest : Dest k)
    (tr : Trace) :
  exists events : Trace,
    snd (decode a url k dest tr) = (tr ++ events)%list
    /\ Forall (own_GET a) events
    /\ Do_calls events <= 1.
Proof.
  destruct (decode_cases a url k dest tr)
    as [[err [_ H]] | [[err H] | [[resp H] | [resp [d H]]]]]; rewrite H; cbn [snd].
  - exists []. rewrite app_nil_r.
    split; [reflexivity | split; [apply Forall_nil | unfold Do_calls; simpl; lia]].
  - eexists. split; [reflexivity |]. split; [| unfold Do_calls; simpl; lia].
    repeat constructor.
  - eexists. split; [reflexivity |]. split; [| unfold Do_calls; simpl; lia].
    repeat constructor.
  - eexists. split; [reflexivity |]. split; [| unfold Do_calls; simpl; lia].
    repeat constructor.
Qed.

Lemma Download_events (a : Client) (asset : Asset) (tr : Trace) :
  exists events : Trace,
    snd (Download a asset tr) = (tr ++ events)%list
    /\ Forall (own_GET a) events
    /\ Do_calls events <= 1.
Proof.
  unfold Download.
  destruct (NewRequest_check "GET" (URL asset)) as [err|] eqn:Hcheck.
  - rewrite (request_refused a (URL asset) _ err Hcheck).
    exists []. cbn [ret snd]. rewrite app_nil_r.
    split; [reflexivity | split; [apply Forall_nil | unfold Do_calls; simpl; lia]].
  - rewrite (request_accepted a (URL asset) _ Hcheck).
    eexists. split; [reflexivity |]. split; [| unfold Do_calls; simpl; lia].
    repeat constructor.
Qed.

(** X5.  Every error [Repo], [LatestRelease] or [Releases] returns, on
    whichever path (request construction, transport, status, decoding), has
    a message that starts with the operation's URL and a colon. *)
Theorem json_operation_error_names_url (op : Operation) (a : Client)
    (repo : string) (tr : Trace) (err : error) :
  snd (fst (run op a repo tr)) = Some err ->
  exists detail : string, Error err = endpoint op repo ++ ": " ++ detail.
Proof.
  rewrite run_decode.
  destruct (decode_cases a (endpoint op repo) (kind_of op) (zero_of op) tr)
    as [[e [_ H]] | [[e H] | [[resp H] | [resp [d H]]]]];
    rewrite H; cbn [fst snd]; intros Herr.
  - injection Herr as <-. now eexists.
  - injection Herr as <-. now eexists.
  - injection Herr as <-. now eexists.
  - destruct (snd d) as [e|]; [| discriminate].
    injection Herr as <-. now eexists.
Qed.

(** X6.  No operation of the client calls [http.Client.Do] more than
    once, whatever the outcome of the call: there is no retry.  Every call
    it makes is a GET, sent through the client's own HTTP client. *)
Theorem operations_call_Do_once_at_most (a : Client) (tr : Trace) :
  (forall (op : Operation) (repo : string),
      exists events : Trace,
        snd (run op a repo tr) = (tr ++ events)%list
        /\ Forall (own_GET a) events
        /\ Do_calls events <= 1)
  /\ (forall asset : Asset,
        exists events : Trace,
          snd (Download a asset tr) = (tr ++ events)%list
          /\ Forall (own_GET a) events
          /\ Do_calls events <= 1).
Proof.
  split.
  - intros op repo. rewrite run_decode. apply decode_events.
  - intros asset. apply Download_events.
Qed.

(** X7.  The I/O of a JSON operation is determined by its URL: two
    operations whose URLs coincide perform the same events from the same
    history.  The repository name is embedded as it is, so [Repo] called
    with [name/releases] does what [Releases] does with [name]. *)
Theorem same_endpoint_same_events (op1 op2 : Operation) (a : Client)
    (repo1 repo2 : string) (tr : Trace) :
  endpoint op1 repo1 = endpoint op2 repo2 ->
  snd (run op1 a repo1 tr) = snd (run op2 a repo2 tr).
Proof.
  intros Hsame. rewrite !run_decode, !decode_trace. now rewrite Hsame.
Qed.

(** ** Construction and use together *)

Lemma New_client_transport (token : string) :
  Transport (client (New token)) = transport_for token.
Proof.
  unfold New, transport_for. now destruct (token =? "").
Qed.

Lemma own_GET_sent_with (token : string) (e : Event) :
  own_GET (New token) e -> sent_with token e.
Proof.
  destruct e as [c req | b | b]; simpl; try easy.
  intros [-> _]. apply New_client_transport.
Qed.

(** X8.  Every round trip made by an operation of [New(token)], whether it
    decodes JSON or downloads, goes through the transport chosen at
    construction: the default one when the token is empty, and
    [TokenAuthenticatedTransport(nil, token)] otherwise. *)
Theorem New_token_reaches_every_request (token : string) (tr : Trace) :
  (forall (op : Operation) (repo : string),
      exists events : Trace,
        snd (run op (New token) repo tr) = (tr ++ events)%list
        /\ Forall (sent_with token) events)
  /\ (forall asset : Asset,
        exists events : Trace,
          snd (Download (New token) asset tr) = (tr ++ events)%list
          /\ Forall (sent_with token) events).
Proof.
  split.
  - intros op repo. rewrite run_decode.
    destruct (decode_events (New token) (endpoint op repo) (kind_of op) (zero_of op) tr)
      as [events [Htrace [Hown _]]].
    exists events. split; [exact Htrace |].
    exact (Forall_impl _ (own_GET_sent_with token) Hown).
  - intros asset.
    destruct (Download_events (New token) asset tr) as [events [Htrace [Hown _]]].
    exists events. split; [exact Htrace |].
    exact (Forall_impl _ (own_GET_sent_with token) Hown).
Qed.

End WithEnvironment.

(** * The theorems at concrete inputs *)

(** A 404 from the sample server: the status error, an untouched
    destination, and a body closed without being read. *)
Lemma decode_status_error_witness :
  request sample_check (New "") "https://api.github.com/repos/cashapp/nothing" []
  = inl (GET "https://api.github.com/repos/cashapp/nothing" [])
  /\ sample_transport [] http_DefaultClient
       (GET "https://api.github.com/repos/cashapp/nothing" []) = inl not_found
  /\ decode sample_check sample_transport sample_Decode (New "")
       "https://api.github.com/repos/cashapp/nothing" KRepo
       {| Description := ""; Homepage := "" |} []
     = (({| Description := ""; Homepage := "" |},
         Some (fundamental
                 "https://api.github.com/repos/cashapp/nothing: GitHub API request failed with 404 Not Found")),
        [RoundTrip http_DefaultClient
           (GET "https://api.github.com/repos/cashapp/nothing" []);
         BodyClose {| content := "{}" |}]).
Proof.
  split; [reflexivity | split; [reflexivity |]].
  apply (decode_status_error sample_check sample_transport sample_Decode (New "")
           "https://api.github.com/repos/cashapp/nothing" KRepo
           {| Description := ""; Homepage := "" |} []
           (GET "https://api.github.com/repos/cashapp/nothing" []) not_found).
  - reflexivity.
  - reflexivity.
  - right. reflexivity.
Defined.

(** A 200 from the sample server: the body is read once, then closed. *)
Lemma decode_closes_body_witness :
  exists reads : Trace,
    snd (decode sample_check sample_transport sample_Decode (New "")
           "https://api.github.com/repos/cashapp/hermit" KRepo
           {| Description := ""; Homepage := "" |} [])
    = ([] ++ [RoundTrip http_DefaultClient
                (GET "https://api.github.com/repos/cashapp/hermit" [])]
          ++ reads ++ [BodyClose {| content := sample_repo_json |}])%list
    /\ (reads = [] \/ reads = [BodyRead {| content := sample_repo_json |}]).
Proof.
  apply (decode_closes_body sample_check sample_transport sample_Decode (New "")
           "https://api.github.com/repos/cashapp/hermit" KRepo
           {| Description := ""; Homepage := "" |} []
           (GET "https://api.github.com/repos/cashapp/hermit" [])
           {| Status := "200 OK"; StatusCode := 200;
              Body := {| content := sample_repo_json |} |}).
  - reflexivity.
  - reflexivity.
Defined.

(** [Repo] on a well-formed body returns the decoded value and a nil
    error; [LatestRelease] on a truncated body returns the wrapped parse
    error. *)
Lemma json_operation_result_or_error_witness :
  (snd (fst (run sample_check sample_transport sample_Decode OpRepo (New "")
               "cashapp/hermit" [])) = None
   /\ decoded_from sample_check sample_transport sample_Decode (New "")
        "https://api.github.com/repos/cashapp/hermit" KRepo
        {| Description := ""; Homepage := "" |} []
        {| Description := "d"; Homepage := "h" |})
  /\ fst (run sample_check sample_transport sample_Decode OpLatestRelease (New "")
            "cashapp/hermit" [])
     = ({| TagName := ""; Assets := [] |},
        Some (Wrap (stdlib_error "unexpected end of JSON input")
                   "https://api.github.com/repos/cashapp/hermit/releases/latest")).
Proof.
  split; [split; [reflexivity |] |].
  - apply (proj1 (json_operation_result_or_error sample_check sample_transport
                    sample_Decode OpRepo (New "") "cashapp/hermit" [])).
    reflexivity.
  - apply (proj2 (json_operation_result_or_error sample_check sample_transport
                    sample_Decode OpLatestRelease (New "") "cashapp/hermit" [])
             {| Status := "200 OK"; StatusCode := 200; Body := {| content := "{" |} |}).
    + reflexivity.
    + reflexivity.
    + unfold success_status. simpl. lia.
    + reflexivity.
Defined.


(** [Download] of an asset whose URL is refused, and of one the sample
    server answers with 404: the response comes back untouched. *)
Lemma Download_hands_over_response_witness :
  Download sample_check sample_transport (New "secret") control_asset []
  = (inr (WithStack (WithStack
            (stdlib_error "net/url: invalid control character in URL"))), [])
  /\ Download sample_check sample_transport (New "secret")
       {| Name := "asset"; URL := "https://api.github.com/assets/1" |} []
     = (inl not_found,
        [RoundTrip {| Transport := Some (TokenAuthenticatedTransport None "secret") |}
           (GET "https://api.github.com/assets/1" accept_octet_stream)]).
Proof.
  split.
  - apply (proj1 (Download_hands_over_response sample_check sample_transport
                    (New "secret") control_asset [])).
    reflexivity.
  - apply (proj2 (Download_hands_over_response sample_check sample_transport
                    (New "secret")
                    {| Name := "asset"; URL := "https://api.github.com/assets/1" |} [])).
    reflexivity.
Defined.

(** C9, as stated, fails for a repository name that [http.NewRequest]
    refuses (here one with a line feed): [Repo] returns the construction
    error without calling [http.Client.Do], so nothing is sent at all. *)
Lemma Repo_refused_no_round_trip :
  Client_Repo sample_check sample_transport sample_Decode (New "") repo_with_newline []
  = (({| Description := ""; Homepage := "" |},
      Some (Wrap (WithStack (stdlib_error "net/url: invalid control character in URL"))
                 ("https://api.github.com/repos/" ++ repo_with_newline))),
     [])
  /\ Do_calls
       (snd (Client_Repo sample_check sample_transport sample_Decode (New "")
               repo_with_newline [])) = 0.
Proof. split; reflexivity. Qed.

(** [Releases] of [cashapp/hermit] calls [Do] once, for the releases
    endpoint; [Repo] of a refused name returns the construction error and
    calls nothing. *)
Lemma json_operation_calls_Do_once_witness :
  (exists rest : Trace,
      snd (run sample_check sample_transport sample_Decode OpReleases (New "")
             "cashapp/hermit" [])
      = ([] ++ RoundTrip http_DefaultClient
                 (GET "https://api.github.com/repos/cashapp/hermit/releases" [])
               :: rest)%list
      /\ Do_calls rest = 0)
  /\ run sample_check sample_transport sample_Decode OpRepo (New "")
       repo_with_newline []
     = (({| Description := ""; Homepage := "" |},
         Some (Wrap (WithStack
                       (stdlib_error "net/url: invalid control character in URL"))
                    ("https://api.github.com/repos/" ++ repo_with_newline))),
        []).
Proof.
  split.
  - apply (proj1 (json_operation_calls_Do_once sample_check sample_transport
                    sample_Decode OpReleases (New "") "cashapp/hermit" [])).
    reflexivity.
  - apply (proj2 (json_operation_calls_Do_once sample_check sample_transport
                    sample_Decode OpRepo (New "") repo_with_newline [])
             (stdlib_error "net/url: invalid control character in URL")).
    reflexivity.
Defined.

(** [New] with the empty token and with a token. *)
Lemma New_transport_witness :
  (client (New "") = http_DefaultClient /\ Transport (client (New "")) = None)
  /\ New "secret"
     = {| client := {| Transport := Some (TokenAuthenticatedTransport None "secret") |} |}.
Proof.
  split.
  - apply (proj1 (New_transport "")). reflexivity.
  - apply (proj2 (New_transport "secret")). discriminate.
Defined.

(** The spec's example: a release page of [foo/bar]. *)
Lemma ProjectForURL_owner_project_witness :
  sample_Parse "https://github.com/foo/bar/releases/tag/v1"
  = inl {| Host := "github.com"; Path := "/foo/bar/releases/tag/v1" |}
  /\ ProjectForURL sample_Parse (New "") "https://github.com/foo/bar/releases/tag/v1"
     = Some "foo/bar".
Proof.
  split; [reflexivity |].
  apply (ProjectForURL_owner_project sample_Parse (New "")
           "https://github.com/foo/bar/releases/tag/v1"
           {| Host := "github.com"; Path := "/foo/bar/releases/tag/v1" |}).
  - reflexivity.
  - reflexivity.
  - simpl. lia.
Defined.

(** An unparsable input, a foreign host and a path without a project. *)
Lemma ProjectForURL_never_fails_witness :
  ProjectForURL sample_Parse (New "") ("https://github.com/" ++ repo_with_newline)
  = Some ""
  /\ ProjectForURL sample_Parse (New "") "https://gitlab.com/owner/project" = Some ""
  /\ ProjectForURL sample_Parse (New "") "https://github.com/foo" = Some "".
Proof.
  split; [| split].
  - apply (proj1 (proj2 (ProjectForURL_never_fails sample_Parse (New "")
                           ("https://github.com/" ++ repo_with_newline)))
             (stdlib_error "net/url: invalid control character in URL")).
    reflexivity.
  - apply (proj1 (proj2 (proj2 (ProjectForURL_never_fails sample_Parse (New "")
                                   "https://gitlab.com/owner/project")))
             {| Host := "gitlab.com"; Path := "/owner/project" |}).
    + reflexivity.
    + discriminate.
  - apply (proj2 (proj2 (proj2 (ProjectForURL_never_fails sample_Parse (New "")
                                   "https://github.com/foo")))
             {| Host := "github.com"; Path := "/foo" |}).
    + reflexivity.
    + simpl. lia.
Defined.

(** An owner page with a trailing slash. *)
Lemma ProjectForURL_trailing_slash_witness :
  sample_Parse "https://github.com/owner/"
  = inl {| Host := "github.com"; Path := "/owner/" |}
  /\ Split "/owner/" "/" = [""; "owner"; ""]
  /\ ProjectForURL sample_Parse (New "") "https://github.com/owner/" = Some "owner/".
Proof.
  split; [reflexivity | split; [reflexivity |]].
  apply (ProjectForURL_trailing_slash sample_Parse (New "") "https://github.com/owner/"
           {| Host := "github.com"; Path := "/owner/" |} "" "owner").
  - reflexivity.
  - reflexivity.
  - reflexivity.
Defined.

(** * The further properties at concrete inputs *)

(** An owner page without a project: one [/] in the path, empty result. *)
Lemma ProjectForURL_empty_iff_few_slashes_witness :
  occurrences "/" "/foo" < 2
  /\ ProjectForURL sample_Parse (New "") "https://github.com/foo" = Some "".
Proof.
  split; [simpl; lia |].
  apply (proj2 (ProjectForURL_empty_iff_few_slashes sample_Parse (New "")
                  "https://github.com/foo"
                  {| Host := "github.com"; Path := "/foo" |} eq_refl eq_refl)).
  simpl. lia.
Defined.

(** A release page: owner [foo], name [bar], tail [/releases/tag/v1]. *)
Lemma ProjectForURL_of_path_witness :
  ProjectForURL sample_Parse (New "") "https://github.com/foo/bar/releases/tag/v1"
  = Some "foo/bar".
Proof.
  apply (ProjectForURL_of_path sample_Parse (New "")
           "https://github.com/foo/bar/releases/tag/v1"
           {| Host := "github.com"; Path := "/foo/bar/releases/tag/v1" |}
           "foo" "bar" "/releases/tag/v1").
  - reflexivity.
  - reflexivity.
  - reflexivity.
  - reflexivity.
  - right. exists "releases/tag/v1". reflexivity.
  - reflexivity.
Defined.

(** The result [foo/bar] of the release page, read backwards. *)
Lemma ProjectForURL_nonempty_result_witness :
  exists (u : url_URL) (owner name : string),
    sample_Parse "https://github.com/foo/bar/releases/tag/v1" = inl u
    /\ Host u = "github.com"
    /\ nth_error (Split (Path u) "/") 1 = Some owner
    /\ nth_error (Split (Path u) "/") 2 = Some name
    /\ "foo/bar" = owner ++ "/" ++ name
    /\ occurrences "/" "foo/bar" = 1.
Proof.
  apply (ProjectForURL_nonempty_result sample_Parse (New "")
           "https://github.com/foo/bar/releases/tag/v1" "foo/bar").
  - reflexivity.
  - discriminate.
Defined.

(** The error of a 404 starts with the URL. *)
Lemma json_operation_error_names_url_witness :
  exists detail : string,
    Error (fundamental
             "https://api.github.com/repos/cashapp/nothing: GitHub API request failed with 404 Not Found")
    = endpoint OpRepo "cashapp/nothing" ++ ": " ++ detail.
Proof.
  apply (json_operation_error_names_url sample_check sample_transport sample_Decode
           OpRepo (New "") "cashapp/nothing" []).
  reflexivity.
Defined.

(** [Repo] of [cashapp/hermit/releases] and [Releases] of [cashapp/hermit]. *)
Lemma same_endpoint_same_events_witness :
  snd (run sample_check sample_transport sample_Decode OpRepo (New "")
         "cashapp/hermit/releases" [])
  = snd (run sample_check sample_transport sample_Decode OpReleases (New "")
           "cashapp/hermit" []).
Proof.
  apply (same_endpoint_same_events sample_check sample_transport sample_Decode
           OpRepo OpReleases (New "") "cashapp/hermit/releases" "cashapp/hermit" []).
  reflexivity.
Defined.
